(** * TIMER0 periodic interrupt example: [timer_example.c]

    A shallow embedding of the timer driver ([start], [stop]), of the
    interrupt handler ([TIMER0_IRQHandler]) and of the memory-mapped
    registers they touch, followed by the properties of the driver that
    the specification states.

    Registers are 32-bit words, held as [Z] with the wrap-around written
    out.  The C functions return [void] and act on the peripheral, on the
    interrupt controller, on the handler's [static] counter and on the
    standard output, so each of them is a function from machine state to
    machine state. *)

From Stdlib Require Import String Ascii DecimalString.
From Stdlib Require Import ZArith List Bool Lia.
Import ListNotations.
Local Open Scope Z_scope.

(** ** 32-bit words *)

Module Word32.

(** Conversion to [unsigned int] (32 bits on the target). *)
Definition to_uint32 (z : Z) : Z := z mod 2 ^ 32.

(** The value a 32-bit word has when it is read as an [int], which is
    what the [%d] conversion of [printf] does with its argument. *)
Definition to_int32 (z : Z) : Z :=
  let u := to_uint32 z in
  if u <? 2 ^ 31 then u else u - 2 ^ 32.

(** C's [~] on a 32-bit word. *)
Definition not32 (z : Z) : Z := to_uint32 (Z.lnot z).

(** C's truth value of a word: anything but zero. *)
Definition truthy (z : Z) : bool := negb (z =? 0).

End Word32.
Import Word32.

(** ** Constants of the vendor header

    [nrf.h] and its bit-field header are not part of the source file; the
    driver only names their macros. *)

(** Modelled from the spec: the macro [TIMER_MODE_MODE_Timer] of the absent
    vendor header, the encoding of "timer" mode (self-incrementing count)
    in the mode register. *)
Definition TIMER_MODE_MODE_Timer : Z := 0.

(** Modelled from the spec: the macro [TIMER_BITMODE_BITMODE_32Bit] of the
    absent vendor header, the encoding of 32-bit counting in the bit-width
    register. *)
Definition TIMER_BITMODE_BITMODE_32Bit : Z := 3.

(** Modelled from the spec: the macros of the absent vendor header that
    locate the compare-match 0 bit in the interrupt-enable mask. *)
Definition TIMER_INTENSET_COMPARE0_Pos : Z := 16.
Definition TIMER_INTENSET_COMPARE0_Enabled : Z := 1.
Definition TIMER_INTENSET_COMPARE0_Msk : Z :=
  Z.shiftl 1 TIMER_INTENSET_COMPARE0_Pos.

(** ** The timer peripheral *)

(** What the registers of [NRF_TIMER0] hold.  The task registers are
    triggers and hold nothing; their effect is on [running] and on the
    internal [COUNTER].  [INTEN] is the interrupt-enable mask, which the
    program reads and writes through [INTENSET]. *)
Record TIMER : Type := mkTIMER {
  MODE : Z;
  PRESCALER : Z;
  BITMODE : Z;
  CC0 : Z;
  INTEN : Z;
  EVENTS_COMPARE0 : Z;
  running : bool;
  COUNTER : Z
}.

Module Reg.

(** Modelled from the spec: the register map is fixed by the hardware and
    is not in the source.  Task registers have write-1-to-trigger
    semantics: stop halts the count, clear zeroes it, start lets it run. *)
Definition write_TASKS_STOP (v : Z) (t : TIMER) : TIMER :=
  if v =? 1
  then mkTIMER (MODE t) (PRESCALER t) (BITMODE t) (CC0 t) (INTEN t)
               (EVENTS_COMPARE0 t) false (COUNTER t)
  else t.

Definition write_TASKS_CLEAR (v : Z) (t : TIMER) : TIMER :=
  if v =? 1
  then mkTIMER (MODE t) (PRESCALER t) (BITMODE t) (CC0 t) (INTEN t)
               (EVENTS_COMPARE0 t) (running t) 0
  else t.

Definition write_TASKS_START (v : Z) (t : TIMER) : TIMER :=
  if v =? 1
  then mkTIMER (MODE t) (PRESCALER t) (BITMODE t) (CC0 t) (INTEN t)
               (EVENTS_COMPARE0 t) true (COUNTER t)
  else t.

(** Modelled from the spec: the configuration registers (mode, prescaler,
    bit-width) and the compare register keep the word written. *)
Definition write_MODE (v : Z) (t : TIMER) : TIMER :=
  mkTIMER (to_uint32 v) (PRESCALER t) (BITMODE t) (CC0 t) (INTEN t)
          (EVENTS_COMPARE0 t) (running t) (COUNTER t).

Definition write_PRESCALER (v : Z) (t : TIMER) : TIMER :=
  mkTIMER (MODE t) (to_uint32 v) (BITMODE t) (CC0 t) (INTEN t)
          (EVENTS_COMPARE0 t) (running t) (COUNTER t).

Definition write_BITMODE (v : Z) (t : TIMER) : TIMER :=
  mkTIMER (MODE t) (PRESCALER t) (to_uint32 v) (CC0 t) (INTEN t)
          (EVENTS_COMPARE0 t) (running t) (COUNTER t).

Definition write_CC0 (v : Z) (t : TIMER) : TIMER :=
  mkTIMER (MODE t) (PRESCALER t) (BITMODE t) (to_uint32 v) (INTEN t)
          (EVENTS_COMPARE0 t) (running t) (COUNTER t).

(** Modelled from the spec: the interrupt-enable-set register is a
    bit mask with set-only semantics.  A write turns on the bits that are
    1 in the word written and leaves the others as they were; a read
    gives the mask.  Clearing a bit needs the separate clear register,
    which the source never writes. *)
Definition write_INTENSET (v : Z) (t : TIMER) : TIMER :=
  mkTIMER (MODE t) (PRESCALER t) (BITMODE t) (CC0 t)
          (Z.lor (INTEN t) (to_uint32 v))
          (EVENTS_COMPARE0 t) (running t) (COUNTER t).

Definition read_INTENSET (t : TIMER) : Z := INTEN t.

(** Modelled from the spec: the event register is a status flag that the
    program clears by writing 0. *)
Definition write_EVENTS_COMPARE0 (v : Z) (t : TIMER) : TIMER :=
  mkTIMER (MODE t) (PRESCALER t) (BITMODE t) (CC0 t) (INTEN t)
          (to_uint32 v) (running t) (COUNTER t).

Definition read_EVENTS_COMPARE0 (t : TIMER) : Z := EVENTS_COMPARE0 t.

(** Modelled from the spec: the hardware raises the compare-match event
    when the running count reaches the compare register.  Time is not
    modelled: the match is a step that the environment takes, and it can
    only happen while the timer runs. *)
Definition compare_match (t : TIMER) : TIMER :=
  if running t
  then mkTIMER (MODE t) (PRESCALER t) (BITMODE t) (CC0 t) (INTEN t)
               1 (running t) (COUNTER t)
  else t.

End Reg.

(** The compare-match 0 interrupt source is enabled at the peripheral: the
    test the handler makes, [INTENSET & TIMER_INTENSET_COMPARE0_Msk]. *)
Definition COMPARE0_enabled (t : TIMER) : bool :=
  truthy (Z.land (Reg.read_INTENSET t) TIMER_INTENSET_COMPARE0_Msk).

(** The compare-match 0 event is pending: the handler's test
    [EVENTS_COMPARE[0]]. *)
Definition COMPARE0_pending (t : TIMER) : bool :=
  truthy (Reg.read_EVENTS_COMPARE0 t).

(** ** The machine *)

(** The type [interrupt_handler], a pointer to a function without
    arguments or result: the address of the code. *)
Definition interrupt_handler : Type := Z.

(** The state the program acts on: the timer, the TIMER0 line of the
    interrupt controller ([None] when the line is disabled, [Some h] when
    it is enabled and bound to [h]), the handler's [static unsigned int
    count], and the numbers printed so far, oldest first. *)
Record machine : Type := mkMachine {
  NRF_TIMER0 : TIMER;
  NVIC : option interrupt_handler;
  count : Z;
  stdout : list Z
}.

Definition on_TIMER0 (f : TIMER -> TIMER) (m : machine) : machine :=
  mkMachine (f (NRF_TIMER0 m)) (NVIC m) (count m) (stdout m).

(** Modelled from the spec: [NVIC_EnableIRQ] is declared by the core header,
    which is not in the source.  The spec gives it as the controller's
    enable-by-line operation taking a handler reference: it enables the
    timer's line and associates it with the handler. *)
Definition NVIC_EnableIRQ (handler : interrupt_handler) (m : machine)
  : machine :=
  mkMachine (NRF_TIMER0 m) (Some handler) (count m) (stdout m).

(** [printf] with the format [%d] and a newline: one more number on the output, the argument read
    as an [int]. *)
Definition printf_d (v : Z) (m : machine) : machine :=
  mkMachine (NRF_TIMER0 m) (NVIC m) (count m) (stdout m ++ [to_int32 v]).

(** The text of the output: each number in decimal on a line of its own. *)
Definition newline : string := String (ascii_of_nat 10) EmptyString.

Definition line (v : Z) : string :=
  (NilZero.string_of_int (Z.to_int v) ++ newline)%string.

Definition stdout_text (m : machine) : string :=
  String.concat EmptyString (map line (stdout m)).

(** The state at program load, whatever the peripherals hold: a [static]
    object without initialiser is zero, and nothing has been printed. *)
Definition program_load (t : TIMER) (nvic : option interrupt_handler)
  : machine :=
  mkMachine t nvic 0 [].

(** ** The driver *)

(** [void start(unsigned int period, interrupt_handler handler)] *)
Definition start (period : Z) (handler : interrupt_handler) (m : machine)
  : machine :=
  let period := to_uint32 period in
  let m := on_TIMER0 (Reg.write_TASKS_STOP 1) m in
  let m := on_TIMER0 (Reg.write_TASKS_CLEAR 1) m in
  let m := on_TIMER0 (Reg.write_MODE TIMER_MODE_MODE_Timer) m in
  let m := on_TIMER0 (Reg.write_PRESCALER 4) m in
  let m := on_TIMER0 (Reg.write_BITMODE TIMER_BITMODE_BITMODE_32Bit) m in
  let m := on_TIMER0 (Reg.write_CC0 period) m in
  let m := on_TIMER0
             (Reg.write_INTENSET
                (Z.shiftl TIMER_INTENSET_COMPARE0_Enabled
                          TIMER_INTENSET_COMPARE0_Pos)) m in
  let m := NVIC_EnableIRQ handler m in
  on_TIMER0 (Reg.write_TASKS_START 1) m.

(** The last statement of [stop] is
    [NRF_TIMER0->INTENSET ~= (Enabled << Pos);], and [~=] is no operator of
    C.  The two statements it can stand for are both modelled: the
    read-modify-write [INTENSET &= ~(...)] and the plain write
    [INTENSET = ~(...)]. *)
Inductive not_assign : Type :=
| and_not_assign
| assign_not.

Definition stop_INTENSET_value (r : not_assign) (t : TIMER) : Z :=
  let mask := Z.shiftl TIMER_INTENSET_COMPARE0_Enabled
                       TIMER_INTENSET_COMPARE0_Pos in
  match r with
  | and_not_assign => Z.land (Reg.read_INTENSET t) (not32 mask)
  | assign_not => not32 mask
  end.

(** [void stop(void)] *)
Definition stop (r : not_assign) (m : machine) : machine :=
  let m := on_TIMER0 (Reg.write_TASKS_STOP 1) m in
  let m := on_TIMER0 (Reg.write_TASKS_CLEAR 1) m in
  let m := on_TIMER0 (Reg.write_CC0 0) m in
  on_TIMER0
    (fun t => Reg.write_INTENSET (stop_INTENSET_value r t) t) m.

(** ** The interrupt handler *)

(** The guard of the handler: the event is pending and its interrupt is
    enabled at the peripheral. *)
Definition guard (m : machine) : bool :=
  COMPARE0_pending (NRF_TIMER0 m) && COMPARE0_enabled (NRF_TIMER0 m).

(** [count++]: the value before, and the counter one up, modulo [2^32]. *)
Definition count_post_incr (m : machine) : Z * machine :=
  (count m,
   mkMachine (NRF_TIMER0 m) (NVIC m) (to_uint32 (count m + 1)) (stdout m)).

(** [void TIMER0_IRQHandler(void)] *)
Definition TIMER0_IRQHandler (m : machine) : machine :=
  if guard m then
    let m := on_TIMER0 (Reg.write_EVENTS_COMPARE0 0) m in
    let (v, m) := count_post_incr m in
    printf_d v m
  else m.

(** ** The environment *)

(** The hardware raises the compare-match event. *)
Definition hw_compare_match (m : machine) : machine :=
  on_TIMER0 Reg.compare_match m.

(** The handler the controller vectors to, if any: the event is pending,
    its interrupt is enabled at the peripheral, and the line is enabled at
    the controller. *)
Definition irq_delivery (m : machine) : option interrupt_handler :=
  if guard m then NVIC m else None.

(** One handled compare-match event: the hardware raises the event and the
    processor runs the handler. *)
Definition handled_event (m : machine) : machine :=
  TIMER0_IRQHandler (hw_compare_match m).

(** [n] handled events in a row. *)
Definition handled_events (n : N) (m : machine) : machine :=
  N.iter n handled_event m.

(** What can happen to the machine, one step at a time. *)
Inductive op : Type :=
| call_start (period : Z) (handler : interrupt_handler)
| call_stop (r : not_assign)
| compare_match_event
| enter_handler.

Definition step (m : machine) (o : op) : machine :=
  match o with
  | call_start period handler => start period handler m
  | call_stop r => stop r m
  | compare_match_event => hw_compare_match m
  | enter_handler => TIMER0_IRQHandler m
  end.

Definition run (tr : list op) (m : machine) : machine :=
  fold_left step tr m.

(** The last call of the driver in a trace, if there is one. *)
Definition note_driver_call (last : option op) (o : op) : option op :=
  match o with
  | call_start _ _ | call_stop _ => Some o
  | compare_match_event | enter_handler => last
  end.

Definition last_driver_call (tr : list op) : option op :=
  fold_left note_driver_call tr None.

(** The frequency of the timer's tick: the 16 MHz peripheral clock divided
    by two to the power of the prescaler (the source's comment: with the
    prescaler at 4 the timer counts at 1 MHz). *)
Definition tick_frequency_Hz (t : TIMER) : Z :=
  16000000 / 2 ^ PRESCALER t.

(** ** Notions the properties are stated with *)

(** A peripheral left with junk by a previous run, for the examples. *)
Definition junk_TIMER : TIMER := mkTIMER 1 9 0 77 3 1 true 12345.

(** The timer runs and its compare-match interrupt is enabled, as [start]
    leaves it. *)
Definition armed (m : machine) : Prop :=
  running (NRF_TIMER0 m) = true /\ COMPARE0_enabled (NRF_TIMER0 m) = true.

(** What a step prints: the output after it, less the output before it. *)
Definition printed_by (f : machine -> machine) (m : machine) : list Z :=
  skipn (length (stdout m)) (stdout (f m)).

(** What the handled event number [k] prints, counting from 0, when the
    events follow one another from [m]. *)
Definition kth_report (k : N) (m : machine) : list Z :=
  printed_by handled_event (handled_events k m).

(** The counter is the number of lines printed so far, modulo [2^32], and
    the line of index [i] holds [i], as [%d] prints a 32-bit word. *)
Definition output_counts (m : machine) : Prop :=
  to_uint32 (count m) = to_uint32 (Z.of_nat (length (stdout m)))
  /\ forall i v, nth_error (stdout m) i = Some v ->
                 v = to_int32 (Z.of_nat i).

(** The reading of the spec's sentence without a bound: every handled
    event reports its own number, counting from 0. *)
Definition counts_up_forever (m : machine) : Prop :=
  forall k : N, kth_report k m = [Z.of_N k].

(** The timer has been stopped by [stop] and not restarted: the last call
    of the driver is [stop]. *)
Definition stopped_not_restarted (tr : list op) : Prop :=
  exists r, last_driver_call tr = Some (call_stop r).

(** The invariant of the spec's data model, at the state the trace [tr]
    leads to from [m0], its two halves read together: when the last call
    of the driver is [start], the compare register holds the period of
    that call; and the register is zero exactly when the timer has been
    stopped and not restarted. *)
Definition compare_register_invariant (tr : list op) (m0 : machine) : Prop :=
  (forall P h, last_driver_call tr = Some (call_start P h) ->
               CC0 (NRF_TIMER0 (run tr m0)) = to_uint32 P)
  /\ (CC0 (NRF_TIMER0 (run tr m0)) = 0 <-> stopped_not_restarted tr).

(** The compare register agrees with the last call of the driver; before
    any call it holds what it held at the beginning, [c0]. *)
Definition cc0_agrees (c0 : Z) (last : option op) (m : machine) : Prop :=
  match last with
  | None => CC0 (NRF_TIMER0 m) = c0
  | Some (call_start P _) => CC0 (NRF_TIMER0 m) = to_uint32 P
  | Some (call_stop _) => CC0 (NRF_TIMER0 m) = 0
  | Some compare_match_event | Some enter_handler => False
  end.

(** The running state agrees with the last call of the driver; before any
    call it is what it was at the beginning, [r0]. *)
Definition running_agrees (r0 : bool) (last : option op) (m : machine)
  : Prop :=
  match last with
  | None => running (NRF_TIMER0 m) = r0
  | Some (call_start _ _) => running (NRF_TIMER0 m) = true
  | Some (call_stop _) => running (NRF_TIMER0 m) = false
  | Some compare_match_event | Some enter_handler => False
  end.

(** The configuration [start] writes: timer mode, prescaler 4, 32 bits. *)
Definition configured (m : machine) : Prop :=
  MODE (NRF_TIMER0 m) = TIMER_MODE_MODE_Timer
  /\ PRESCALER (NRF_TIMER0 m) = 4
  /\ BITMODE (NRF_TIMER0 m) = TIMER_BITMODE_BITMODE_32Bit.

(** The compare-match events and the entries of the handler in a trace. *)
Definition is_compare_match (o : op) : bool :=
  match o with
  | compare_match_event => true
  | call_start _ _ | call_stop _ | enter_handler => false
  end.

Definition is_enter_handler (o : op) : bool :=
  match o with
  | enter_handler => true
  | call_start _ _ | call_stop _ | compare_match_event => false
  end.

Definition compare_matches (tr : list op) : nat :=
  List.length (filter is_compare_match tr).

Definition handler_entries (tr : list op) : nat :=
  List.length (filter is_enter_handler tr).

(** The events waiting for the handler: one when the flag is up. *)
Definition pending_events (m : machine) : nat :=
  if COMPARE0_pending (NRF_TIMER0 m) then 1%nat else 0%nat.

(** * Properties *)

(** ** Bits of the interrupt-enable mask *)

Lemma COMPARE0_Msk_is_enable_value :
  Z.shiftl TIMER_INTENSET_COMPARE0_Enabled TIMER_INTENSET_COMPARE0_Pos
  = TIMER_INTENSET_COMPARE0_Msk.
Proof. reflexivity. Qed.

Lemma land_COMPARE0_Msk_testbit (x : Z) :
  truthy (Z.land x TIMER_INTENSET_COMPARE0_Msk) = Z.testbit x 16.
Proof.
  unfold truthy.
  change TIMER_INTENSET_COMPARE0_Msk with (2 ^ 16).
  destruct (Z.testbit x 16) eqn:Hbit.
  - apply negb_true_iff, Z.eqb_neq. intro Hz.
    assert (Hb : Z.testbit (Z.land x (2 ^ 16)) 16 = true).
    { rewrite Z.land_spec, Hbit. reflexivity. }
    rewrite Hz in Hb. discriminate Hb.
  - apply negb_false_iff, Z.eqb_eq, Z.bits_inj'.
    intros n Hn. rewrite Z.land_spec, Z.bits_0, Z.pow2_bits_eqb by lia.
    destruct (Z.eqb_spec 16 n) as [<- | _].
    + rewrite Hbit. reflexivity.
    + apply andb_false_r.
Qed.

Lemma COMPARE0_enabled_testbit (t : TIMER) :
  COMPARE0_enabled t = Z.testbit (INTEN t) 16.
Proof. apply land_COMPARE0_Msk_testbit. Qed.

Lemma to_uint32_testbit_16 (v : Z) :
  Z.testbit (to_uint32 v) 16 = Z.testbit v 16.
Proof. unfold to_uint32. apply Z.mod_pow2_bits_low. lia. Qed.

Lemma not32_COMPARE0_bit :
  Z.testbit (not32 TIMER_INTENSET_COMPARE0_Msk) 16 = false.
Proof. reflexivity. Qed.

(** A write to the set register never turns a bit of the mask off. *)
Lemma write_INTENSET_monotone (v : Z) (t : TIMER) (n : Z) :
  Z.testbit (INTEN t) n = true ->
  Z.testbit (INTEN (Reg.write_INTENSET v t)) n = true.
Proof.
  intro H. cbn [Reg.write_INTENSET INTEN].
  rewrite Z.lor_spec, H. reflexivity.
Qed.

(** ** What [start] and [stop] leave in the peripheral *)

Lemma start_TIMER0 (period : Z) (handler : interrupt_handler) (m : machine) :
  NRF_TIMER0 (start period handler m)
  = mkTIMER TIMER_MODE_MODE_Timer 4 TIMER_BITMODE_BITMODE_32Bit
            (to_uint32 (to_uint32 period))
            (Z.lor (INTEN (NRF_TIMER0 m)) TIMER_INTENSET_COMPARE0_Msk)
            (EVENTS_COMPARE0 (NRF_TIMER0 m)) true 0.
Proof. reflexivity. Qed.

Lemma to_uint32_idem (z : Z) : to_uint32 (to_uint32 z) = to_uint32 z.
Proof. unfold to_uint32. apply Z.mod_mod. lia. Qed.

Lemma to_uint32_small (z : Z) : 0 <= z < 2 ^ 32 -> to_uint32 z = z.
Proof. unfold to_uint32. apply Z.mod_small. Qed.

Lemma start_rest (period : Z) (handler : interrupt_handler) (m : machine) :
  NVIC (start period handler m) = Some handler
  /\ count (start period handler m) = count m
  /\ stdout (start period handler m) = stdout m.
Proof. repeat split. Qed.

Lemma stop_TIMER0 (r : not_assign) (m : machine) :
  let t := NRF_TIMER0 m in
  NRF_TIMER0 (stop r m)
  = mkTIMER (MODE t) (PRESCALER t) (BITMODE t) 0
            (Z.lor (INTEN t)
               (to_uint32
                  (match r with
                   | and_not_assign =>
                       Z.land (INTEN t) (not32 TIMER_INTENSET_COMPARE0_Msk)
                   | assign_not => not32 TIMER_INTENSET_COMPARE0_Msk
                   end)))
            (EVENTS_COMPARE0 t) false 0.
Proof. destruct r; reflexivity. Qed.

Lemma stop_rest (r : not_assign) (m : machine) :
  NVIC (stop r m) = NVIC m
  /\ count (stop r m) = count m
  /\ stdout (stop r m) = stdout m.
Proof. repeat split. Qed.

(** [stop] leaves the compare-match 0 bit of the mask as it found it,
    whichever statement the last line stands for. *)
Lemma stop_COMPARE0_enabled (r : not_assign) (m : machine) :
  COMPARE0_enabled (NRF_TIMER0 (stop r m))
  = COMPARE0_enabled (NRF_TIMER0 m).
Proof.
  rewrite !COMPARE0_enabled_testbit, stop_TIMER0. cbn [INTEN].
  rewrite Z.lor_spec, to_uint32_testbit_16.
  destruct r.
  - rewrite Z.land_spec, not32_COMPARE0_bit, andb_false_r.
    apply orb_false_r.
  - rewrite not32_COMPARE0_bit. apply orb_false_r.
Qed.

Lemma start_COMPARE0_enabled (period : Z) (handler : interrupt_handler)
      (m : machine) :
  COMPARE0_enabled (NRF_TIMER0 (start period handler m)) = true.
Proof.
  rewrite COMPARE0_enabled_testbit, start_TIMER0. cbn [INTEN].
  rewrite Z.lor_spec. apply orb_true_r.
Qed.

Lemma machine_ext (a b : machine) :
  NRF_TIMER0 a = NRF_TIMER0 b -> NVIC a = NVIC b ->
  count a = count b -> stdout a = stdout b -> a = b.
Proof. destruct a, b; cbn; intros; subst; reflexivity. Qed.

(** ** The contract of [start] *)

(** C1.  For every period [P] in [1, 2^32-1] and every handler [h], after
    [start(P, h)] the compare register CC[0] equals [P], the peripheral is
    running, the prescaler is 4 (a tick of 1 microsecond: the timer counts
    at 1 MHz) and the bit-width register is set to 32-bit counting; the
    prescaler and the bit width are the same for every other period and
    handler too. *)
Theorem start_configures_timer (P : Z) (h : interrupt_handler) (m : machine) :
  1 <= P <= 2 ^ 32 - 1 ->
  CC0 (NRF_TIMER0 (start P h m)) = P
  /\ running (NRF_TIMER0 (start P h m)) = true
  /\ PRESCALER (NRF_TIMER0 (start P h m)) = 4
  /\ tick_frequency_Hz (NRF_TIMER0 (start P h m)) = 1000000
  /\ BITMODE (NRF_TIMER0 (start P h m)) = TIMER_BITMODE_BITMODE_32Bit
  /\ (forall P' h' m',
         PRESCALER (NRF_TIMER0 (start P' h' m')) = 4
         /\ BITMODE (NRF_TIMER0 (start P' h' m'))
            = TIMER_BITMODE_BITMODE_32Bit).
Proof.
  intro HP. rewrite start_TIMER0. cbn [CC0 running PRESCALER BITMODE].
  repeat split.
  rewrite to_uint32_idem. apply to_uint32_small. lia.
Qed.

Lemma start_configures_timer_witness :
  1 <= 509 <= 2 ^ 32 - 1
  /\ CC0 (NRF_TIMER0 (start 509 7 (program_load junk_TIMER None))) = 509.
Proof.
  assert (HP : 1 <= 509 <= 2 ^ 32 - 1) by lia.
  split; [exact HP |].
  exact (proj1 (start_configures_timer
                  509 7 (program_load junk_TIMER None) HP)).
Defined.

(** C8.  [start(period, handler)] enables the TIMER0 line at the interrupt
    controller and associates it with [handler]: after [start], when the
    compare-match event is raised, the controller delivers the interrupt to
    [handler]. *)
Theorem start_enables_irq_for_handler
        (period : Z) (handler : interrupt_handler) (m : machine) :
  NVIC (start period handler m) = Some handler
  /\ irq_delivery (hw_compare_match (start period handler m))
     = Some handler.
Proof.
  split; [reflexivity |].
  unfold irq_delivery, guard, hw_compare_match.
  cbn [on_TIMER0 NRF_TIMER0 NVIC]. rewrite start_TIMER0.
  cbn [Reg.compare_match running].
  rewrite COMPARE0_enabled_testbit. cbn [INTEN].
  rewrite Z.lor_spec, orb_true_r. reflexivity.
Qed.

(** C6.  Two calls of [start] in a row leave the peripheral configured by
    the second call only, whatever the state before and whatever the first
    call was given: the count is cleared to 0 by the clear task, the timer
    runs, the compare register holds the second period, mode, prescaler and
    bit width are the fixed ones, the compare-match interrupt is enabled and
    the line is bound to the second handler.  Nothing of the first call is
    left: the machine, and so the peripheral, is the one the second call
    alone gives. *)
Theorem start_twice_is_second_start
        (P1 P2 : Z) (h1 h2 : interrupt_handler) (m : machine) :
  start P2 h2 (start P1 h1 m) = start P2 h2 m
  /\ NRF_TIMER0 (start P2 h2 (start P1 h1 m)) = NRF_TIMER0 (start P2 h2 m)
  /\ CC0 (NRF_TIMER0 (start P2 h2 (start P1 h1 m))) = P2 mod 2 ^ 32
  /\ (0 <= P2 < 2 ^ 32 ->
      CC0 (NRF_TIMER0 (start P2 h2 (start P1 h1 m))) = P2)
  /\ COUNTER (NRF_TIMER0 (start P2 h2 (start P1 h1 m))) = 0
  /\ running (NRF_TIMER0 (start P2 h2 (start P1 h1 m))) = true
  /\ MODE (NRF_TIMER0 (start P2 h2 (start P1 h1 m))) = TIMER_MODE_MODE_Timer
  /\ PRESCALER (NRF_TIMER0 (start P2 h2 (start P1 h1 m))) = 4
  /\ BITMODE (NRF_TIMER0 (start P2 h2 (start P1 h1 m)))
     = TIMER_BITMODE_BITMODE_32Bit
  /\ COMPARE0_enabled (NRF_TIMER0 (start P2 h2 (start P1 h1 m))) = true
  /\ NVIC (start P2 h2 (start P1 h1 m)) = Some h2
  /\ count (start P2 h2 (start P1 h1 m)) = count m
  /\ stdout (start P2 h2 (start P1 h1 m)) = stdout m.
Proof.
  assert (HT : NRF_TIMER0 (start P2 h2 (start P1 h1 m))
               = NRF_TIMER0 (start P2 h2 m)).
  { rewrite !start_TIMER0. cbn [INTEN EVENTS_COMPARE0].
    rewrite <- Z.lor_assoc, Z.lor_diag. reflexivity. }
  split; [apply machine_ext; [exact HT | reflexivity ..] |].
  split; [exact HT |].
  split; [rewrite start_TIMER0; cbn [CC0]; apply to_uint32_idem |].
  split.
  { intro HP. rewrite start_TIMER0. cbn [CC0].
    rewrite to_uint32_idem. apply to_uint32_small, HP. }
  split; [rewrite start_TIMER0; reflexivity |].
  split; [rewrite start_TIMER0; reflexivity |].
  split; [rewrite start_TIMER0; reflexivity |].
  split; [rewrite start_TIMER0; reflexivity |].
  split; [rewrite start_TIMER0; reflexivity |].
  split; [apply start_COMPARE0_enabled |].
  repeat split.
Qed.

Lemma start_twice_is_second_start_witness :
  CC0 (NRF_TIMER0
         (start 100 8 (start 509 7 (program_load junk_TIMER None)))) = 100
  /\ COUNTER (NRF_TIMER0
         (start 100 8 (start 509 7 (program_load junk_TIMER None)))) = 0.
Proof.
  assert (HP : 0 <= 100 < 2 ^ 32) by lia.
  pose proof (start_twice_is_second_start
                509 100 7 8 (program_load junk_TIMER None))
    as (_ & _ & _ & HC & HN & _).
  split; [exact (HC HP) | exact HN].
Defined.

(** ** The contract of [stop] *)

(** C3 (the code at the failing input).  After [start(P, h)] and then
    [stop()], the compare register reads 0 and the timer does not run, but
    the compare-match interrupt is still enabled at the peripheral: the set
    register cannot turn the bit off. *)
Theorem stop_after_start_keeps_interrupt_enabled
        (r : not_assign) (P : Z) (h : interrupt_handler) (m : machine) :
  CC0 (NRF_TIMER0 (stop r (start P h m))) = 0
  /\ running (NRF_TIMER0 (stop r (start P h m))) = false
  /\ COMPARE0_enabled (NRF_TIMER0 (stop r (start P h m))) = true
  /\ Z.testbit (Reg.read_INTENSET (NRF_TIMER0 (stop r (start P h m)))) 16
     = true.
Proof.
  assert (He : COMPARE0_enabled (NRF_TIMER0 (stop r (start P h m))) = true).
  { rewrite stop_COMPARE0_enabled. apply start_COMPARE0_enabled. }
  split; [| split; [| split]].
  - rewrite stop_TIMER0. reflexivity.
  - rewrite stop_TIMER0. reflexivity.
  - exact He.
  - rewrite COMPARE0_enabled_testbit in He. exact He.
Qed.

(** C7.  [stop()] changes the timer peripheral only: the fired-event
    counter and the output keep their values, and the registration of the
    interrupt line at the controller persists.  In particular [stop()]
    right after [start(100, h)] leaves the compare register at 0, the timer
    stopped, the counter as it was before the two calls and the line bound
    to [h]. *)
Theorem stop_changes_timer_only
        (r : not_assign) (h : interrupt_handler) (m : machine) :
  stop r m = mkMachine (NRF_TIMER0 (stop r m)) (NVIC m) (count m) (stdout m)
  /\ count (stop r m) = count m
  /\ NVIC (stop r m) = NVIC m
  /\ count (stop r (start 100 h m)) = count m
  /\ NVIC (stop r (start 100 h m)) = Some h
  /\ CC0 (NRF_TIMER0 (stop r (start 100 h m))) = 0
  /\ running (NRF_TIMER0 (stop r (start 100 h m))) = false.
Proof.
  split; [apply machine_ext; reflexivity |].
  split; [reflexivity |].
  split; [reflexivity |].
  split; [reflexivity |].
  split; [reflexivity |].
  rewrite stop_TIMER0. split; reflexivity.
Qed.

(** ** The handler's guard *)

Lemma TIMER0_IRQHandler_guarded (m : machine) :
  guard m = true ->
  TIMER0_IRQHandler m
  = mkMachine (Reg.write_EVENTS_COMPARE0 0 (NRF_TIMER0 m)) (NVIC m)
              (to_uint32 (count m + 1)) (stdout m ++ [to_int32 (count m)]).
Proof. unfold TIMER0_IRQHandler. intros ->. reflexivity. Qed.

Lemma TIMER0_IRQHandler_unguarded (m : machine) :
  guard m = false -> TIMER0_IRQHandler m = m.
Proof. unfold TIMER0_IRQHandler. intros ->. reflexivity. Qed.

(** C9.  If at the handler's entry the compare-match event is not pending
    or its interrupt is not enabled, the handler does nothing: the counter,
    the event flag and the output are unchanged.  So the flag is cleared
    and the counter reported and incremented only when both hold. *)
Theorem handler_does_nothing_unless_pending_and_enabled (m : machine) :
  COMPARE0_pending (NRF_TIMER0 m) = false
  \/ COMPARE0_enabled (NRF_TIMER0 m) = false ->
  TIMER0_IRQHandler m = m
  /\ count (TIMER0_IRQHandler m) = count m
  /\ EVENTS_COMPARE0 (NRF_TIMER0 (TIMER0_IRQHandler m))
     = EVENTS_COMPARE0 (NRF_TIMER0 m)
  /\ stdout (TIMER0_IRQHandler m) = stdout m.
Proof.
  intro H.
  assert (Hg : guard m = false).
  { unfold guard. destruct H as [-> | ->];
      [reflexivity | apply andb_false_r]. }
  rewrite (TIMER0_IRQHandler_unguarded m Hg). repeat split.
Qed.

Lemma handler_does_nothing_unless_pending_and_enabled_witness :
  TIMER0_IRQHandler (stop and_not_assign (program_load junk_TIMER None))
  = stop and_not_assign (program_load junk_TIMER None).
Proof.
  exact (proj1 (handler_does_nothing_unless_pending_and_enabled
                  (stop and_not_assign (program_load junk_TIMER None))
                  (or_intror eq_refl))).
Defined.

(** ** Handled compare-match events *)

Lemma start_armed (period : Z) (handler : interrupt_handler) (m : machine) :
  armed (start period handler m).
Proof. split; [reflexivity | apply start_COMPARE0_enabled]. Qed.

Lemma hw_compare_match_guard (m : machine) :
  armed m -> guard (hw_compare_match m) = true.
Proof.
  intros [Hrun Hen]. unfold guard, hw_compare_match.
  cbn [on_TIMER0 NRF_TIMER0]. unfold Reg.compare_match. rewrite Hrun.
  rewrite COMPARE0_enabled_testbit in *. cbn [INTEN]. rewrite Hen.
  reflexivity.
Qed.

Lemma handled_event_armed (m : machine) :
  armed m ->
  handled_event m
  = mkMachine (Reg.write_EVENTS_COMPARE0 0
                 (Reg.compare_match (NRF_TIMER0 m)))
              (NVIC m) (to_uint32 (count m + 1))
              (stdout m ++ [to_int32 (count m)]).
Proof.
  intro Ha. unfold handled_event.
  rewrite TIMER0_IRQHandler_guarded by (apply hw_compare_match_guard, Ha).
  reflexivity.
Qed.

Lemma handled_event_keeps_armed (m : machine) :
  armed m -> armed (handled_event m).
Proof.
  intro Ha. rewrite handled_event_armed by exact Ha.
  destruct Ha as [Hrun Hen]. unfold armed. cbn [NRF_TIMER0].
  unfold Reg.compare_match. rewrite Hrun.
  rewrite COMPARE0_enabled_testbit in *. cbn. auto.
Qed.

Lemma printed_by_app (f : machine -> machine) (m : machine) (l : list Z) :
  stdout (f m) = stdout m ++ l -> printed_by f m = l.
Proof.
  intro H. unfold printed_by. rewrite H, skipn_app, skipn_all, Nat.sub_diag.
  reflexivity.
Qed.

Lemma handled_event_prints (m : machine) :
  armed m -> printed_by handled_event m = [to_int32 (count m)].
Proof.
  intro Ha. apply printed_by_app.
  rewrite handled_event_armed by exact Ha. reflexivity.
Qed.

Lemma handled_events_succ (n : N) (m : machine) :
  handled_events (N.succ n) m = handled_event (handled_events n m).
Proof. unfold handled_events. apply N.iter_succ. Qed.

Lemma to_uint32_add_l (a b : Z) :
  to_uint32 (to_uint32 a + b) = to_uint32 (a + b).
Proof. unfold to_uint32. apply Zplus_mod_idemp_l. Qed.

Lemma to_int32_to_uint32 (a : Z) : to_int32 (to_uint32 a) = to_int32 a.
Proof. unfold to_int32. rewrite to_uint32_idem. reflexivity. Qed.

Lemma to_int32_small (a : Z) : 0 <= a < 2 ^ 31 -> to_int32 a = a.
Proof.
  intro H. unfold to_int32. rewrite to_uint32_small by lia.
  destruct (Z.ltb_spec a (2 ^ 31)); [reflexivity | lia].
Qed.

(** After [n] handled events the timer is still armed and the counter has
    gone up by [n], modulo [2^32]. *)
Lemma handled_events_count (n : N) (m : machine) :
  armed m ->
  armed (handled_events n m)
  /\ to_uint32 (count (handled_events n m))
     = to_uint32 (count m + Z.of_N n).
Proof.
  intro Ha. induction n as [| n [IHa IHc]] using N.peano_ind.
  - split; [exact Ha |]. cbn. rewrite Z.add_0_r. reflexivity.
  - rewrite handled_events_succ. split.
    + apply handled_event_keeps_armed, IHa.
    + rewrite handled_event_armed by exact IHa. cbn [count].
      rewrite to_uint32_idem, <- to_uint32_add_l, IHc, to_uint32_add_l.
      f_equal. lia.
Qed.

Lemma kth_report_armed (k : N) (m : machine) :
  armed m -> kth_report k m = [to_int32 (count m + Z.of_N k)].
Proof.
  intro Ha. destruct (handled_events_count k m Ha) as [Hk Hc].
  unfold kth_report. rewrite handled_event_prints by exact Hk.
  rewrite <- to_int32_to_uint32, Hc, to_int32_to_uint32. reflexivity.
Qed.

(** From program load and a [start], the counter after [n] handled events
    is [n] modulo [2^32]. *)
Lemma count_after_events
      (t : TIMER) (nvic : option interrupt_handler)
      (P : Z) (h : interrupt_handler) (n : N) :
  count (handled_events n (start P h (program_load t nvic)))
  = to_uint32 (Z.of_N n).
Proof.
  destruct n as [| p] using N.peano_ind; [reflexivity |].
  rewrite handled_events_succ.
  destruct (handled_events_count p (start P h (program_load t nvic))
              (start_armed _ _ _)) as [Ha Hc].
  rewrite handled_event_armed by exact Ha. cbn [count].
  rewrite <- to_uint32_add_l, Hc, to_uint32_add_l.
  f_equal. cbn [count start program_load on_TIMER0 NVIC_EnableIRQ]. lia.
Qed.

(** The handler never writes the compare register. *)
Lemma TIMER0_IRQHandler_CC0 (m : machine) :
  CC0 (NRF_TIMER0 (TIMER0_IRQHandler m)) = CC0 (NRF_TIMER0 m).
Proof. unfold TIMER0_IRQHandler. destruct (guard m); reflexivity. Qed.

Lemma hw_compare_match_CC0 (m : machine) :
  CC0 (NRF_TIMER0 (hw_compare_match m)) = CC0 (NRF_TIMER0 m).
Proof.
  unfold hw_compare_match, Reg.compare_match. cbn [on_TIMER0 NRF_TIMER0].
  destruct (running (NRF_TIMER0 m)); reflexivity.
Qed.

Lemma handled_event_stdout (m : machine) :
  armed m ->
  stdout (handled_event m) = stdout m ++ [to_int32 (count m)]
  /\ count (handled_event m) = to_uint32 (count m + 1).
Proof.
  intro Ha. rewrite handled_event_armed by exact Ha. split; reflexivity.
Qed.

Lemma handled_event_CC0 (m : machine) :
  CC0 (NRF_TIMER0 (handled_event m)) = CC0 (NRF_TIMER0 m).
Proof.
  unfold handled_event.
  rewrite TIMER0_IRQHandler_CC0. apply hw_compare_match_CC0.
Qed.

(** C5.  After [start(509, h)] and three handled compare-match events the
    numbers printed are 0, 1, 2, one by each event, and the compare
    register CC[0] equals 509 before and after each run of the handler:
    the handler never writes the compare register. *)
Theorem three_events_after_start_509
        (t : TIMER) (nvic : option interrupt_handler)
        (h : interrupt_handler) :
  let m0 := start 509 h (program_load t nvic) in
  let m1 := handled_event m0 in
  let m2 := handled_event m1 in
  let m3 := handled_event m2 in
  stdout m3 = [0; 1; 2]
  /\ stdout_text m3
     = ("0" ++ newline ++ "1" ++ newline ++ "2" ++ newline)%string
  /\ printed_by handled_event m0 = [0]
  /\ printed_by handled_event m1 = [1]
  /\ printed_by handled_event m2 = [2]
  /\ Forall (fun m => CC0 (NRF_TIMER0 m) = 509)
            [m0; hw_compare_match m0; m1;
             hw_compare_match m1; m2;
             hw_compare_match m2; m3]
  /\ (forall m, CC0 (NRF_TIMER0 (TIMER0_IRQHandler m))
                = CC0 (NRF_TIMER0 m)).
Proof.
  intros m0 m1 m2 m3.
  assert (A0 : armed m0) by apply start_armed.
  assert (A1 : armed m1) by apply handled_event_keeps_armed, A0.
  assert (A2 : armed m2) by apply handled_event_keeps_armed, A1.
  destruct (handled_event_stdout m0 A0) as [S1 N1].
  destruct (handled_event_stdout m1 A1) as [S2 N2].
  destruct (handled_event_stdout m2 A2) as [S3 N3].
  fold m1 in S1, N1, S2, N2. fold m2 in S2, N2, S3, N3. fold m3 in S3, N3.
  assert (C0 : count m0 = 0) by reflexivity.
  assert (O0 : stdout m0 = []) by reflexivity.
  rewrite C0 in N1, S1. rewrite O0 in S1.
  change (count m1 = 1) in N1. change (stdout m1 = [0]) in S1.
  rewrite N1 in N2, S2. rewrite S1 in S2.
  change (count m2 = 2) in N2. change (stdout m2 = [0; 1]) in S2.
  rewrite N2 in S3. rewrite S2 in S3.
  change (stdout m3 = [0; 1; 2]) in S3.
  assert (K0 : CC0 (NRF_TIMER0 m0) = 509) by reflexivity.
  assert (K1 : CC0 (NRF_TIMER0 m1) = 509).
  { unfold m1. rewrite handled_event_CC0. exact K0. }
  assert (K2 : CC0 (NRF_TIMER0 m2) = 509).
  { unfold m2. rewrite handled_event_CC0. exact K1. }
  assert (K3 : CC0 (NRF_TIMER0 m3) = 509).
  { unfold m3. rewrite handled_event_CC0. exact K2. }
  split; [exact S3 |].
  split; [unfold stdout_text; rewrite S3; reflexivity |].
  split; [apply printed_by_app; fold m1; rewrite S1, O0; reflexivity |].
  split; [apply printed_by_app; fold m2; rewrite S2, S1; reflexivity |].
  split; [apply printed_by_app; fold m3; rewrite S3, S2; reflexivity |].
  split; [| exact TIMER0_IRQHandler_CC0].
  repeat constructor; rewrite ?hw_compare_match_CC0; assumption.
Qed.

(** ** The numbers printed, in any run *)

Lemma output_counts_program_load
      (t : TIMER) (nvic : option interrupt_handler) :
  output_counts (program_load t nvic).
Proof.
  split; [reflexivity |].
  intros [| i] v H; discriminate H.
Qed.

Lemma output_counts_frame (m m' : machine) :
  count m' = count m -> stdout m' = stdout m ->
  output_counts m -> output_counts m'.
Proof. unfold output_counts. intros -> ->. exact (fun H => H). Qed.

Lemma output_counts_TIMER0_IRQHandler (m : machine) :
  output_counts m -> output_counts (TIMER0_IRQHandler m).
Proof.
  intros [Hc Hl]. destruct (guard m) eqn:Hg.
  - rewrite TIMER0_IRQHandler_guarded by exact Hg.
    split; cbn [count stdout].
    + rewrite length_app, Nat2Z.inj_add. cbn [length].
      rewrite to_uint32_idem, <- to_uint32_add_l, Hc, to_uint32_add_l.
      reflexivity.
    + intros i v H.
      destruct (Nat.lt_ge_cases i (length (stdout m))) as [Hi | Hi].
      * rewrite nth_error_app1 in H by exact Hi. apply Hl, H.
      * rewrite nth_error_app2 in H by exact Hi.
        destruct (i - length (stdout m))%nat as [| j] eqn:Hj.
        -- injection H as <-.
           assert (i = length (stdout m)) as -> by lia.
           rewrite <- to_int32_to_uint32, Hc, to_int32_to_uint32.
           reflexivity.
        -- destruct j; discriminate H.
  - rewrite TIMER0_IRQHandler_unguarded by exact Hg. split; assumption.
Qed.

Lemma output_counts_step (m : machine) (o : op) :
  output_counts m -> output_counts (step m o).
Proof.
  destruct o as [P h | r | |]; cbn [step].
  - apply output_counts_frame; reflexivity.
  - apply output_counts_frame; reflexivity.
  - apply output_counts_frame; reflexivity.
  - apply output_counts_TIMER0_IRQHandler.
Qed.

Lemma output_counts_run (tr : list op) (m : machine) :
  output_counts m -> output_counts (run tr m).
Proof.
  revert m. induction tr as [| o tr IH]; intros m H; [exact H |].
  apply IH, output_counts_step, H.
Qed.

(** ** The reported sequence *)

(** C2, as stated, fails: the counter is a 32-bit word, so the event of
    number [2^32] reports 0 again. *)
Lemma counts_up_forever_fails :
  ~ counts_up_forever (start 509 7 (program_load junk_TIMER None)).
Proof.
  intro H. specialize (H (2 ^ 32)%N).
  rewrite kth_report_armed in H by apply start_armed.
  discriminate H.
Qed.

(** C2, amended.  The counter starts at 0.  A run of the handler whose
    guard passes prints the counter's value, as [%d] shows it, and then
    adds one to the counter modulo [2^32], once.  So the handled event of
    number [k], counting from 0, reports [k] and moves the counter from [k]
    to [k + 1], as long as [k < 2^31]; and in any run from program load the
    line of index [i] of the output holds [i], as long as [i < 2^31]. *)
Theorem reports_count_up_below_2_31
        (t : TIMER) (nvic : option interrupt_handler)
        (P : Z) (h : interrupt_handler) (k : N) :
  Z.of_N k < 2 ^ 31 ->
  count (start P h (program_load t nvic)) = 0
  /\ kth_report k (start P h (program_load t nvic)) = [Z.of_N k]
  /\ count (handled_events k (start P h (program_load t nvic))) = Z.of_N k
  /\ count (handled_events (N.succ k) (start P h (program_load t nvic)))
     = Z.of_N k + 1
  /\ (forall m, guard m = true ->
        printed_by TIMER0_IRQHandler m = [to_int32 (count m)]
        /\ count (TIMER0_IRQHandler m) = to_uint32 (count m + 1))
  /\ (forall tr i v,
        nth_error (stdout (run tr (program_load t nvic))) i = Some v ->
        Z.of_nat i < 2 ^ 31 ->
        v = Z.of_nat i).
Proof.
  intro Hk. assert (H0 : 0 <= Z.of_N k) by apply N2Z.is_nonneg.
  split; [reflexivity |].
  split.
  { rewrite kth_report_armed by apply start_armed.
    change (count (start P h (program_load t nvic))) with 0.
    rewrite Z.add_0_l, to_int32_small by lia. reflexivity. }
  split.
  { rewrite count_after_events. apply to_uint32_small. lia. }
  split.
  { rewrite count_after_events, N2Z.inj_succ.
    apply to_uint32_small. lia. }
  split.
  { intros m Hg. rewrite TIMER0_IRQHandler_guarded by exact Hg.
    split; [| reflexivity].
    apply printed_by_app. rewrite TIMER0_IRQHandler_guarded by exact Hg.
    reflexivity. }
  intros tr i v Hnth Hi.
  destruct (output_counts_run tr _ (output_counts_program_load t nvic))
    as [_ Hl].
  rewrite (Hl i v Hnth). apply to_int32_small. lia.
Qed.

Lemma reports_count_up_below_2_31_witness :
  kth_report 2 (start 509 7 (program_load junk_TIMER None)) = [2].
Proof.
  exact (proj1 (proj2 (reports_count_up_below_2_31
                         junk_TIMER None 509 7 2 eq_refl))).
Defined.


(** ** The compare register along a run *)

Lemma cc0_agrees_step (c0 : Z) (last : option op) (m : machine) (o : op) :
  cc0_agrees c0 last m ->
  cc0_agrees c0 (note_driver_call last o) (step m o).
Proof.
  intro H. destruct o as [P h | r | |]; cbn [note_driver_call step cc0_agrees].
  - rewrite start_TIMER0. apply to_uint32_idem.
  - rewrite stop_TIMER0. reflexivity.
  - destruct last as [[] |]; cbn [cc0_agrees] in *;
      rewrite ?hw_compare_match_CC0; exact H.
  - destruct last as [[] |]; cbn [cc0_agrees] in *;
      rewrite ?TIMER0_IRQHandler_CC0; exact H.
Qed.

Lemma cc0_agrees_run (c0 : Z) (tr : list op) :
  forall (last : option op) (m : machine),
    cc0_agrees c0 last m ->
    cc0_agrees c0 (fold_left note_driver_call tr last) (run tr m).
Proof.
  induction tr as [| o tr IH]; intros last m H; [exact H |].
  apply IH, cc0_agrees_step, H.
Qed.

Lemma cc0_agrees_last_driver_call (tr : list op) (m0 : machine) :
  cc0_agrees (CC0 (NRF_TIMER0 m0)) (last_driver_call tr) (run tr m0).
Proof. apply cc0_agrees_run. reflexivity. Qed.

(** C4, as stated, fails: [start(0, h)] leaves the compare register at
    zero, and the timer has not been stopped. *)
Lemma compare_register_invariant_fails :
  ~ compare_register_invariant [call_start 0 7]
      (program_load junk_TIMER None).
Proof.
  intros [_ [Hzero _]].
  destruct (Hzero eq_refl) as [r Hr]. discriminate Hr.
Qed.

(** C4, amended.  In every state reached by calls of [start] and [stop],
    compare-match events and runs of the handler: when the last call of
    the driver is [start(P, h)] the compare register holds [P]; when it is
    [stop] the register holds 0; so, once the driver has been called, the
    register is zero exactly when the timer has been stopped and not
    restarted, or the last [start] had the period 0. *)
Theorem compare_register_after_driver_calls (tr : list op) (m0 : machine) :
  (forall P h, last_driver_call tr = Some (call_start P h) ->
               CC0 (NRF_TIMER0 (run tr m0)) = to_uint32 P)
  /\ (forall r, last_driver_call tr = Some (call_stop r) ->
                CC0 (NRF_TIMER0 (run tr m0)) = 0)
  /\ (last_driver_call tr <> None ->
      (CC0 (NRF_TIMER0 (run tr m0)) = 0 <->
       stopped_not_restarted tr
       \/ exists P h, last_driver_call tr = Some (call_start P h)
                      /\ to_uint32 P = 0)).
Proof.
  pose proof (cc0_agrees_last_driver_call tr m0) as H.
  unfold stopped_not_restarted.
  destruct (last_driver_call tr) as [[P h | r | |] |];
    cbn [cc0_agrees] in H; try contradiction.
  - split; [intros P' h' [= <- <-]; exact H |].
    split; [intros r' [=] |].
    intros _. split.
    + intro Hz. right. exists P, h. split; [reflexivity | congruence].
    + intros [[r' [=]] | [P' [h' [[= <- <-] Hz]]]]. congruence.
  - split; [intros P' h' [=] |].
    split; [intros _ _; exact H |].
    intros _. split; [intros _; left; exists r; reflexivity |].
    intros _. exact H.
  - split; [intros P' h' [=] |].
    split; [intros r' [=] |].
    intro Hn. contradiction Hn. reflexivity.
Qed.

(** * Further properties of the driver and of the handler *)

(** ** One report for one event *)

(** X1.  The handler reports an event once: entered again with no new
    compare match it changes nothing and prints nothing, whatever the state
    it was first entered in. *)
Theorem TIMER0_IRQHandler_idempotent (m : machine) :
  TIMER0_IRQHandler (TIMER0_IRQHandler m) = TIMER0_IRQHandler m
  /\ printed_by TIMER0_IRQHandler (TIMER0_IRQHandler m) = [].
Proof.
  assert (H : TIMER0_IRQHandler (TIMER0_IRQHandler m)
              = TIMER0_IRQHandler m).
  { destruct (guard m) eqn:Hg.
    - rewrite (TIMER0_IRQHandler_guarded m Hg).
      apply TIMER0_IRQHandler_unguarded. reflexivity.
    - rewrite (TIMER0_IRQHandler_unguarded m Hg).
      apply TIMER0_IRQHandler_unguarded, Hg. }
  split; [exact H |].
  apply printed_by_app. rewrite H. symmetry. apply app_nil_r.
Qed.

(** ** Events left pending *)

Lemma start_pending (period : Z) (handler : interrupt_handler)
      (m : machine) :
  COMPARE0_pending (NRF_TIMER0 (start period handler m))
  = COMPARE0_pending (NRF_TIMER0 m).
Proof. rewrite start_TIMER0. reflexivity. Qed.

Lemma stop_pending (r : not_assign) (m : machine) :
  COMPARE0_pending (NRF_TIMER0 (stop r m))
  = COMPARE0_pending (NRF_TIMER0 m).
Proof. rewrite stop_TIMER0. reflexivity. Qed.

(** X2.  [start] does not clear an event left pending by an earlier run:
    when the event flag is up before [start(period, handler)], the
    interrupt is due right after it with no compare match, and the handler
    then reports the counter and takes the flag down. *)
Theorem start_keeps_stale_event
        (period : Z) (handler : interrupt_handler) (m : machine) :
  COMPARE0_pending (NRF_TIMER0 m) = true ->
  guard (start period handler m) = true
  /\ irq_delivery (start period handler m) = Some handler
  /\ printed_by TIMER0_IRQHandler (start period handler m)
     = [to_int32 (count m)]
  /\ COMPARE0_pending
       (NRF_TIMER0 (TIMER0_IRQHandler (start period handler m))) = false.
Proof.
  intro Hp.
  assert (Hg : guard (start period handler m) = true).
  { unfold guard. rewrite start_pending, Hp, start_COMPARE0_enabled.
    reflexivity. }
  split; [exact Hg |].
  split; [unfold irq_delivery; rewrite Hg; reflexivity |].
  rewrite (TIMER0_IRQHandler_guarded _ Hg).
  split; [| reflexivity].
  apply printed_by_app. rewrite (TIMER0_IRQHandler_guarded _ Hg).
  reflexivity.
Qed.

Lemma start_keeps_stale_event_witness :
  printed_by TIMER0_IRQHandler
    (start 509 7 (program_load junk_TIMER None)) = [0].
Proof.
  exact (proj1 (proj2 (proj2
           (start_keeps_stale_event
              509 7 (program_load junk_TIMER None) eq_refl)))).
Defined.

(** ** After [stop] *)

Lemma handled_event_idle (m : machine) :
  running (NRF_TIMER0 m) = false ->
  COMPARE0_pending (NRF_TIMER0 m) = false ->
  handled_event m = m.
Proof.
  intros Hr Hp. unfold handled_event.
  assert (Hm : hw_compare_match m = m).
  { unfold hw_compare_match, on_TIMER0, Reg.compare_match. rewrite Hr.
    destruct m; reflexivity. }
  rewrite Hm. apply TIMER0_IRQHandler_unguarded.
  unfold guard. rewrite Hp. reflexivity.
Qed.

(** X3.  [stop] ends the reports when no event is left pending: from then
    on, however many compare matches are due, the timer raises none and
    the handler prints nothing and leaves the counter alone. *)
Theorem no_reports_after_stop (r : not_assign) (n : N) (m : machine) :
  COMPARE0_pending (NRF_TIMER0 m) = false ->
  handled_events n (stop r m) = stop r m
  /\ stdout (handled_events n (stop r m)) = stdout m
  /\ count (handled_events n (stop r m)) = count m.
Proof.
  intro Hp.
  assert (H : handled_events n (stop r m) = stop r m).
  { induction n as [| n IH] using N.peano_ind; [reflexivity |].
    rewrite handled_events_succ, IH. apply handled_event_idle.
    - rewrite stop_TIMER0. reflexivity.
    - rewrite stop_pending. exact Hp. }
  rewrite H. repeat split.
Qed.

Lemma no_reports_after_stop_witness :
  stdout (handled_events 5
            (stop assign_not
               (handled_event (start 509 7 (program_load junk_TIMER None)))))
  = [0].
Proof.
  exact (proj1 (proj2
           (no_reports_after_stop
              assign_not 5
              (handled_event (start 509 7 (program_load junk_TIMER None)))
              eq_refl))).
Defined.

(** ** Whole runs: what the driver's calls settle *)

Lemma TIMER0_IRQHandler_frame (m : machine) :
  let t := NRF_TIMER0 m in
  let t' := NRF_TIMER0 (TIMER0_IRQHandler m) in
  MODE t' = MODE t /\ PRESCALER t' = PRESCALER t /\ BITMODE t' = BITMODE t
  /\ INTEN t' = INTEN t /\ running t' = running t.
Proof.
  cbv zeta. unfold TIMER0_IRQHandler. destruct (guard m); repeat split.
Qed.

Lemma hw_compare_match_frame (m : machine) :
  let t := NRF_TIMER0 m in
  let t' := NRF_TIMER0 (hw_compare_match m) in
  MODE t' = MODE t /\ PRESCALER t' = PRESCALER t /\ BITMODE t' = BITMODE t
  /\ INTEN t' = INTEN t /\ running t' = running t.
Proof.
  cbv zeta.
  unfold hw_compare_match, on_TIMER0, Reg.compare_match. cbn [NRF_TIMER0].
  destruct (running (NRF_TIMER0 m)) eqn:Hr; cbn; rewrite ?Hr; repeat split.
Qed.

Lemma running_agrees_step (r0 : bool) (last : option op) (m : machine)
      (o : op) :
  running_agrees r0 last m ->
  running_agrees r0 (note_driver_call last o) (step m o).
Proof.
  intro H.
  destruct o as [P h | r | |]; cbn [note_driver_call step running_agrees].
  - rewrite start_TIMER0. reflexivity.
  - rewrite stop_TIMER0. reflexivity.
  - destruct (hw_compare_match_frame m) as (_ & _ & _ & _ & Hr).
    destruct last as [[] |]; cbn [running_agrees] in *;
      rewrite ?Hr; exact H.
  - destruct (TIMER0_IRQHandler_frame m) as (_ & _ & _ & _ & Hr).
    destruct last as [[] |]; cbn [running_agrees] in *;
      rewrite ?Hr; exact H.
Qed.

Lemma running_agrees_run (r0 : bool) (tr : list op) :
  forall (last : option op) (m : machine),
    running_agrees r0 last m ->
    running_agrees r0 (fold_left note_driver_call tr last) (run tr m).
Proof.
  induction tr as [| o tr IH]; intros last m H; [exact H |].
  apply IH, running_agrees_step, H.
Qed.

(** X4.  Along any run of driver calls, compare matches and entries of the
    handler, the timer runs exactly as the last call of the driver left
    it: running after [start], halted after [stop], and as it was at the
    beginning when the driver has not been called.  Neither the compare
    match nor the handler starts or halts the timer. *)
Theorem running_after_driver_calls (tr : list op) (m0 : machine) :
  (forall P h, last_driver_call tr = Some (call_start P h) ->
               running (NRF_TIMER0 (run tr m0)) = true)
  /\ (forall r, last_driver_call tr = Some (call_stop r) ->
                running (NRF_TIMER0 (run tr m0)) = false)
  /\ (last_driver_call tr = None ->
      running (NRF_TIMER0 (run tr m0)) = running (NRF_TIMER0 m0)).
Proof.
  assert (H : running_agrees (running (NRF_TIMER0 m0))
                (last_driver_call tr) (run tr m0)).
  { apply running_agrees_run. reflexivity. }
  destruct (last_driver_call tr) as [[P h | r | |] |];
    cbn [running_agrees] in H; try contradiction.
  - split; [intros; exact H |]. split; [intros r' [=] | intros [=]].
  - split; [intros P' h' [=] |]. split; [intros; exact H | intros [=]].
  - split; [intros P' h' [=] |]. split; [intros r' [=] | intros; exact H].
Qed.

Lemma configured_step (m : machine) (o : op) :
  configured m -> configured (step m o).
Proof.
  intros (Hm & Hp & Hb). unfold configured.
  destruct o as [P h | r | |]; cbn [step].
  - rewrite start_TIMER0. repeat split.
  - rewrite stop_TIMER0. cbn [MODE PRESCALER BITMODE]. auto.
  - destruct (hw_compare_match_frame m) as (-> & -> & -> & _). auto.
  - destruct (TIMER0_IRQHandler_frame m) as (-> & -> & -> & _). auto.
Qed.

Lemma configured_run (tr : list op) (m : machine) :
  configured m -> configured (run tr m).
Proof.
  revert m. induction tr as [| o tr IH]; intros m H; [exact H |].
  apply IH, configured_step, H.
Qed.

(** X5.  What [start] configures stays configured: after a [start],
    whatever follows ([stop], another [start], compare matches, the
    handler), the timer is in timer mode, with the prescaler at 4 (a tick
    of 1 MHz) and 32-bit counting.  [stop] does not undo the
    configuration. *)
Theorem configuration_survives_run
        (tr : list op) (P : Z) (h : interrupt_handler) (m : machine) :
  MODE (NRF_TIMER0 (run tr (start P h m))) = TIMER_MODE_MODE_Timer
  /\ PRESCALER (NRF_TIMER0 (run tr (start P h m))) = 4
  /\ tick_frequency_Hz (NRF_TIMER0 (run tr (start P h m))) = 1000000
  /\ BITMODE (NRF_TIMER0 (run tr (start P h m)))
     = TIMER_BITMODE_BITMODE_32Bit.
Proof.
  assert (H : configured (run tr (start P h m))).
  { apply configured_run. unfold configured. rewrite start_TIMER0.
    repeat split. }
  destruct H as (Hm & Hp & Hb).
  unfold tick_frequency_Hz. rewrite Hp. repeat split; assumption.
Qed.

Lemma INTEN_step_monotone (m : machine) (o : op) (n : Z) :
  Z.testbit (INTEN (NRF_TIMER0 m)) n = true ->
  Z.testbit (INTEN (NRF_TIMER0 (step m o))) n = true.
Proof.
  intro H. destruct o as [P h | r | |]; cbn [step].
  - rewrite start_TIMER0. cbn [INTEN]. rewrite Z.lor_spec, H. reflexivity.
  - rewrite stop_TIMER0. cbn [INTEN]. rewrite Z.lor_spec, H. reflexivity.
  - destruct (hw_compare_match_frame m) as (_ & _ & _ & -> & _). exact H.
  - destruct (TIMER0_IRQHandler_frame m) as (_ & _ & _ & -> & _). exact H.
Qed.

Lemma INTEN_run_monotone (tr : list op) (n : Z) :
  forall m : machine,
    Z.testbit (INTEN (NRF_TIMER0 m)) n = true ->
    Z.testbit (INTEN (NRF_TIMER0 (run tr m))) n = true.
Proof.
  induction tr as [| o tr IH]; intros m H; [exact H |].
  apply IH, INTEN_step_monotone, H.
Qed.

(** X6.  No path of the program disables an interrupt of the timer: an
    enable bit that reads 1 in [INTENSET] still reads 1 after any run of
    driver calls, compare matches and entries of the handler.  So once
    [start] has been called the compare-match interrupt stays enabled for
    good. *)
Theorem interrupt_enables_never_cleared
        (tr : list op) (m : machine) (n : Z) :
  Z.testbit (Reg.read_INTENSET (NRF_TIMER0 m)) n = true ->
  Z.testbit (Reg.read_INTENSET (NRF_TIMER0 (run tr m))) n = true
  /\ (forall P h,
        COMPARE0_enabled (NRF_TIMER0 (run tr (start P h m))) = true).
Proof.
  intro H. split; [apply INTEN_run_monotone, H |].
  intros P h. rewrite COMPARE0_enabled_testbit.
  apply INTEN_run_monotone.
  rewrite <- COMPARE0_enabled_testbit. apply start_COMPARE0_enabled.
Qed.

Lemma interrupt_enables_never_cleared_witness :
  Z.testbit
    (Reg.read_INTENSET
       (NRF_TIMER0
          (run [call_start 5 7; call_stop and_not_assign; enter_handler]
               (program_load junk_TIMER None)))) 1 = true.
Proof.
  exact (proj1 (interrupt_enables_never_cleared
                  [call_start 5 7; call_stop and_not_assign; enter_handler]
                  (program_load junk_TIMER None) 1 eq_refl)).
Defined.

(** ** Whole runs: the counter and the output *)

Lemma to_int32_range (a : Z) : - 2 ^ 31 <= to_int32 a < 2 ^ 31.
Proof.
  unfold to_int32.
  assert (H : 0 <= to_uint32 a < 2 ^ 32)
    by (apply Z.mod_pos_bound; lia).
  destruct (Z.ltb_spec (to_uint32 a) (2 ^ 31)); lia.
Qed.

Lemma count_in_range_step (m : machine) (o : op) :
  0 <= count m < 2 ^ 32 -> 0 <= count (step m o) < 2 ^ 32.
Proof.
  intro H. destruct o as [P h | r | |]; cbn [step]; try exact H.
  unfold TIMER0_IRQHandler. destruct (guard m); [| exact H].
  cbn [count_post_incr printf_d count]. apply Z.mod_pos_bound. lia.
Qed.

Lemma count_in_range_run (tr : list op) :
  forall m : machine,
    0 <= count m < 2 ^ 32 -> 0 <= count (run tr m) < 2 ^ 32.
Proof.
  induction tr as [| o tr IH]; intros m H; [exact H |].
  apply IH, count_in_range_step, H.
Qed.

(** X7.  In any run from program load the counter is the number of lines
    printed so far, modulo [2^32]; it stays a 32-bit unsigned value, and
    every number printed is in the range of a 32-bit [int].  The driver's
    calls never reset the counter. *)
Theorem count_is_lines_printed
        (t : TIMER) (nvic : option interrupt_handler) (tr : list op) :
  count (run tr (program_load t nvic))
  = Z.of_nat (List.length (stdout (run tr (program_load t nvic))))
    mod 2 ^ 32
  /\ 0 <= count (run tr (program_load t nvic)) < 2 ^ 32
  /\ Forall (fun v => - 2 ^ 31 <= v < 2 ^ 31)
            (stdout (run tr (program_load t nvic))).
Proof.
  destruct (output_counts_run tr _ (output_counts_program_load t nvic))
    as [Hc Hl].
  assert (Hr : 0 <= count (run tr (program_load t nvic)) < 2 ^ 32).
  { apply count_in_range_run. cbn. lia. }
  split; [| split; [exact Hr |]].
  - rewrite <- (to_uint32_small _ Hr). exact Hc.
  - apply Forall_forall. intros v Hin.
    destruct (In_nth_error _ _ Hin) as [i Hi].
    rewrite (Hl i v Hi). apply to_int32_range.
Qed.

Lemma pending_events_le_1 (m : machine) : (pending_events m <= 1)%nat.
Proof.
  unfold pending_events.
  destruct (COMPARE0_pending (NRF_TIMER0 m)); lia.
Qed.

Lemma pending_events_frame (m m' : machine) :
  COMPARE0_pending (NRF_TIMER0 m') = COMPARE0_pending (NRF_TIMER0 m) ->
  pending_events m' = pending_events m.
Proof. unfold pending_events. intros ->. reflexivity. Qed.

Lemma step_reports (m : machine) (o : op) :
  exists l,
    stdout (step m o) = stdout m ++ l
    /\ (List.length l + pending_events (step m o)
        <= (if is_compare_match o then 1 else 0) + pending_events m)%nat
    /\ (List.length l <= if is_enter_handler o then 1 else 0)%nat.
Proof.
  destruct o as [P h | r | |];
    cbn [step is_compare_match is_enter_handler].
  - exists []. rewrite app_nil_r.
    rewrite (pending_events_frame m _ (start_pending P h m)).
    cbn [List.length]. repeat split; lia.
  - exists []. rewrite app_nil_r.
    rewrite (pending_events_frame m _ (stop_pending r m)).
    cbn [List.length]. repeat split; lia.
  - exists []. rewrite app_nil_r. cbn [List.length].
    pose proof (pending_events_le_1 (hw_compare_match m)).
    split; [reflexivity | split; lia].
  - destruct (guard m) eqn:Hg.
    + rewrite (TIMER0_IRQHandler_guarded m Hg).
      exists [to_int32 (count m)]. cbn [stdout List.length].
      split; [reflexivity |].
      unfold guard in Hg. apply andb_true_iff in Hg as [Hp _].
      unfold pending_events at 2. rewrite Hp.
      split; [cbn; lia | lia].
    + rewrite (TIMER0_IRQHandler_unguarded m Hg).
      exists []. rewrite app_nil_r. cbn [List.length].
      repeat split; lia.
Qed.

(** X8.  The output only grows, and no event is reported twice: in any
    run, the lines printed, together with an event still pending at the
    end, are no more than the compare matches of the run, together with an
    event pending at the beginning; and they are no more than the entries
    of the handler. *)
Theorem reports_bounded_by_compare_matches (tr : list op) (m : machine) :
  exists l,
    stdout (run tr m) = stdout m ++ l
    /\ (List.length l + pending_events (run tr m)
        <= compare_matches tr + pending_events m)%nat
    /\ (List.length l <= handler_entries tr)%nat.
Proof.
  revert m. induction tr as [| o tr IH]; intro m.
  - exists []. rewrite app_nil_r. cbn. repeat split; lia.
  - destruct (step_reports m o) as (l0 & Hs0 & Hp0 & Hh0).
    destruct (IH (step m o)) as (l1 & Hs1 & Hp1 & Hh1).
    exists (l0 ++ l1). change (run (o :: tr) m) with (run tr (step m o)).
    rewrite Hs1, Hs0, <- app_assoc, length_app.
    unfold compare_matches, handler_entries in *. cbn [filter].
    split; [reflexivity |].
    split.
    + destruct (is_compare_match o); cbn [List.length]; lia.
    + destruct (is_enter_handler o); cbn [List.length]; lia.
Qed.

(** ** The last statement of [stop] *)

Lemma to_uint32_testbit (a n : Z) :
  0 <= n ->
  Z.testbit (to_uint32 a) n = (n <? 32) && Z.testbit a n.
Proof.
  intro Hn. unfold to_uint32. destruct (Z.ltb_spec n 32).
  - rewrite Z.mod_pow2_bits_low by lia. reflexivity.
  - rewrite Z.mod_pow2_bits_high by lia. reflexivity.
Qed.

Lemma not32_COMPARE0_Msk_testbit (n : Z) :
  0 <= n ->
  Z.testbit (not32 TIMER_INTENSET_COMPARE0_Msk) n
  = (n <? 32) && negb (n =? 16).
Proof.
  intro Hn. unfold not32. rewrite to_uint32_testbit by exact Hn.
  change TIMER_INTENSET_COMPARE0_Msk with (2 ^ 16).
  rewrite Z.lnot_spec, Z.pow2_bits_eqb by lia.
  rewrite (Z.eqb_sym 16 n). reflexivity.
Qed.

Lemma lor_land_absorb (a b : Z) : Z.lor a (to_uint32 (Z.land a b)) = a.
Proof.
  apply Z.bits_inj'. intros n Hn.
  rewrite Z.lor_spec, to_uint32_testbit, Z.land_spec by exact Hn.
  destruct (Z.testbit a n), (n <? 32), (Z.testbit b n); reflexivity.
Qed.

(** X9.  The last statement of [stop] cannot turn an interrupt off.  Read
    as [INTENSET &= ~mask] it leaves the enable mask exactly as it was;
    read as [INTENSET = ~mask] it leaves the compare-match 0 bit as it was
    and turns on each of the 31 other bits of the register. *)
Theorem stop_cannot_disable (m : machine) (n : Z) :
  0 <= n < 32 ->
  Reg.read_INTENSET (NRF_TIMER0 (stop and_not_assign m))
  = Reg.read_INTENSET (NRF_TIMER0 m)
  /\ Z.testbit (Reg.read_INTENSET (NRF_TIMER0 (stop assign_not m))) n
     = (if n =? 16
        then Z.testbit (Reg.read_INTENSET (NRF_TIMER0 m)) 16
        else true).
Proof.
  intro Hn. rewrite !stop_TIMER0. unfold Reg.read_INTENSET. cbn [INTEN].
  split; [apply lor_land_absorb |].
  rewrite Z.lor_spec, to_uint32_testbit, not32_COMPARE0_Msk_testbit by lia.
  destruct (Z.eqb_spec n 16) as [-> | Hne].
  - cbn. apply orb_false_r.
  - destruct (Z.ltb_spec n 32); [| lia]. cbn. apply orb_true_r.
Qed.

Lemma stop_cannot_disable_witness :
  Z.testbit
    (Reg.read_INTENSET
       (NRF_TIMER0 (stop assign_not (program_load junk_TIMER None)))) 17
  = true.
Proof.
  assert (H : 0 <= 17 < 32) by lia.
  exact (proj2 (stop_cannot_disable (program_load junk_TIMER None) 17 H)).
Defined.

(** ** Calls of the driver, one after another *)

Lemma TIMER_ext (a b : TIMER) :
  MODE a = MODE b -> PRESCALER a = PRESCALER b -> BITMODE a = BITMODE b ->
  CC0 a = CC0 b -> INTEN a = INTEN b ->
  EVENTS_COMPARE0 a = EVENTS_COMPARE0 b -> running a = running b ->
  COUNTER a = COUNTER b -> a = b.
Proof. destruct a, b; cbn; intros; subst; reflexivity. Qed.

(** X10.  [stop] twice is [stop] once, for either reading of its last
    statement; and with the read-modify-write reading, [start] after
    [stop] leaves the machine as [start] alone does: [stop] leaves nothing
    behind that [start] does not overwrite. *)
Theorem stop_stop_and_stop_start
        (r : not_assign) (P : Z) (h : interrupt_handler) (m : machine) :
  stop r (stop r m) = stop r m
  /\ start P h (stop and_not_assign m) = start P h m.
Proof.
  split.
  - apply machine_ext; try reflexivity.
    rewrite (stop_TIMER0 r (stop r m)). cbv zeta.
    rewrite !(stop_TIMER0 r m). cbv zeta. cbn [MODE PRESCALER BITMODE CC0
      INTEN EVENTS_COMPARE0 running COUNTER].
    apply TIMER_ext; cbn [MODE PRESCALER BITMODE CC0 INTEN EVENTS_COMPARE0
      running COUNTER]; try reflexivity.
    destruct r.
    + rewrite !lor_land_absorb. reflexivity.
    + rewrite <- Z.lor_assoc, Z.lor_diag. reflexivity.
  - apply machine_ext; try reflexivity.
    rewrite !start_TIMER0, stop_TIMER0. cbn [INTEN EVENTS_COMPARE0].
    rewrite lor_land_absorb. reflexivity.
Qed.

(** X11.  The numbering goes on across a restart: after [start], [n]
    handled events, [stop] and a new [start], the handled event of number
    [k] reports [n + k] as [%d] shows a 32-bit word, not [k]. *)
Theorem numbering_continues_across_restart
        (t : TIMER) (nvic : option interrupt_handler)
        (P P' : Z) (h h' : interrupt_handler) (r : not_assign) (n k : N) :
  kth_report k
    (start P' h'
       (stop r (handled_events n (start P h (program_load t nvic)))))
  = [to_int32 (Z.of_N n + Z.of_N k)].
Proof.
  rewrite kth_report_armed by apply start_armed.
  destruct (start_rest P' h'
              (stop r (handled_events n (start P h (program_load t nvic)))))
    as (_ & -> & _).
  destruct (stop_rest r (handled_events n (start P h (program_load t nvic))))
    as (_ & -> & _).
  rewrite count_after_events.
  rewrite <- to_int32_to_uint32, to_uint32_add_l, to_int32_to_uint32.
  reflexivity.
Qed.
